(** * Bound statements of bob: struct binder, bound statement wrappers and
      the sqlite SELECT renderer

    A shallow embedding of [stmt_bound.go] (package [bob]) and of
    [SelectQuery.WriteSQL] (package [sqlite]).

    Conventions of the embedding.
    - A Go value of static type [any] is a term of [any].
    - A Go function returning [(T, error)] returns a [result T]:
      [Return v] for [return v, nil], [Fail e] for [return zero, e], and
      [Panic p] when the Go runtime panics instead of returning.
    - A slice is a [list]; [make([]T, n)] is [replicate n zero]; the
      assignment [s[i] = x] is stdpp's [<[i:=x]> s]; a read [s !! i].
    - A [for i, x := range s] loop is a structural recursion over [s] that
      carries [i] and the variables the body assigns. *)

From Stdlib Require Import ZArith.
From stdpp Require Import base option list strings.

Open Scope string_scope.
Open Scope list_scope.

(** ** Dynamic values, errors and results *)

(** The dynamic values that flow through the binder.  [namedArg] is the
    string type [namedArg]; [named] is the struct [named] with its [names]
    slice; [Str] and [Int] are ordinary field values; [Nil] is the nil
    interface, the zero value of an [any] slot. *)
Inductive any : Type :=
| Nil
| Int (n : Z)
| Str (s : string)
| namedArg (name : string)
| named (names : list string).

Inductive error : Type :=
| errors_New (text : string)
| MissingArgError (Name : string)
| NamedArgRequiredError (value : any).

(** [reflect.Value.Field(i)] panics when [i] is not below [NumField()]. *)
Inductive panic : Type :=
| FieldIndexOutOfRange (i : nat)
| NilPointerDereference.

Inductive result (A : Type) : Type :=
| Return (a : A)
| Fail (e : error)
| Panic (p : panic).
Arguments Return {A} a.
Arguments Fail {A} e.
Arguments Panic {A} p.

(** ** The struct binder *)

Record structBinder : Type := {
  args : list string;
  fields : list string;
}.

(** The argument handed to a bound statement, as [reflect.ValueOf] sees it:
    a struct, given by its field values in ordinal (declaration) order, or
    a pointer to one, possibly nil.  All fields are exported, so that
    [field.Interface()] is permitted on each of them.  Arguments of other
    kinds (a pointer to a pointer, a value that is no struct) are not
    modelled. *)
Inductive argument : Type :=
| StructArg (val : list any)
| PointerArg (target : option (list any)).

(** The scan [for _, fieldName := range fields { if fieldName == name ... }]
    that both functions run: does some entry equal [name]? *)
Fixpoint hasField (fieldPositions : list string) (name : string) : bool :=
  match fieldPositions with
  | [] => false
  | field :: rest => if String.eqb field name then true else hasField rest name
  end.

(** The [ArgLoop] of [toArgs]: [index] is the loop index, [values] the
    slice being filled.  On a name match the body reads [val.Field(index)],
    with the index of the OUTER loop, and continues with the next name. *)
Fixpoint toArgsLoop (b_fields : list string) (val : list any)
    (b_args : list string) (index : nat) (values : list any) : result (list any) :=
  match b_args with
  | [] => Return values
  | argName :: rest =>
      if hasField b_fields argName then
        match val !! index with
        | Some field => toArgsLoop b_fields val rest (S index) (<[index := field]> values)
        | None => Panic (FieldIndexOutOfRange index)
        end
      else Fail (MissingArgError argName)
  end.

Definition toArgs (b : structBinder) (arg : argument) : result (list any) :=
  match arg with
  | PointerArg None => Fail (errors_New "object is nil")
  | PointerArg (Some val) | StructArg val =>
      toArgsLoop (fields b) val (args b) 0 (replicate (length (args b)) Nil)
  end.

(** The two type assertions at the head of the first loop of
    [makeStructBinder]: [arg.(namedArg)], then [arg.(named)] with exactly
    one name.  [None] is the fall-through to [NamedArgRequiredError]. *)
Definition placeholderName (arg : any) : option string :=
  match arg with
  | namedArg name => Some name
  | named names =>
      match names with
      | [name] => Some name
      | _ => None
      end
  | _ => None
  end.

Definition isNamed (a : any) (n : string) : Prop := placeholderName a = Some n.

Fixpoint namePositions (args : list any) (pos : nat) (argPositions : list string)
    : result (list string) :=
  match args with
  | [] => Return argPositions
  | arg :: rest =>
      match placeholderName arg with
      | Some name => namePositions rest (S pos) (<[pos := name]> argPositions)
      | None => Fail (NamedArgRequiredError arg)
      end
  end.

(** The second [ArgLoop]: the first name without a matching field. *)
Fixpoint checkPositions (fieldPositions argPositions : list string) : option string :=
  match argPositions with
  | [] => None
  | name :: rest =>
      if hasField fieldPositions name then checkPositions fieldPositions rest
      else Some name
  end.

(** [makeStructBinder[Arg](args)].  [fieldPositions] is
    [mappings.GetMappings(reflect.TypeOf(x)).All] for the type argument
    [Arg]: the field names of the argument type, one per field, in ordinal
    order.  The mapping package is outside this development, so the list
    stands for the type. *)
Definition makeStructBinder (fieldPositions : list string) (args : list any)
    : result structBinder :=
  match namePositions args 0 (replicate (length args) "") with
  | Return argPositions =>
      match checkPositions fieldPositions argPositions with
      | Some name => Fail (MissingArgError name)
      | None => Return {| args := argPositions; fields := fieldPositions |}
      end
  | Fail e => Fail e
  | Panic p => Panic p
  end.

(** The struct behind an argument, if any. *)
Definition structOf (arg : argument) : option (list any) :=
  match arg with
  | StructArg val => Some val
  | PointerArg target => target
  end.

(** Specification side: an argument value belongs to the argument type
    when it has one value per field of the type. *)
Definition hasType (fieldPositions : list string) (arg : argument) : Prop :=
  match arg with
  | StructArg val | PointerArg (Some val) => length val = length fieldPositions
  | PointerArg None => True
  end.

(** Specification side: the value of the field called [name], read at the
    ordinal position that the name has in the field list of the type. *)
Fixpoint fieldNamed (fieldPositions : list string) (val : list any) (name : string)
    : option any :=
  match fieldPositions, val with
  | field :: rest, v :: vals =>
      if String.eqb field name then Some v else fieldNamed rest vals name
  | _, _ => None
  end.

(** ** Effects

    Code that works on a mutable collaborator (the database, an
    [io.Writer]) threads its state [S]: a computation takes the state and
    gives a result, an error or a panic, with the state after it.  An error
    or a panic ends the sequence, as [if err != nil { return ..., err }]
    does after each call. *)

Definition effect (S A : Type) : Type := S -> result A * S.

Definition ret {S A} (a : A) : effect S A := fun w => (Return a, w).

Definition raise {S A} (e : error) : effect S A := fun w => (Fail e, w).

Definition crash {S A} (p : panic) : effect S A := fun w => (Panic p, w).

Definition bind {S A B} (m : effect S A) (k : A -> effect S B) : effect S B :=
  fun w =>
    match m w with
    | (Return a, w') => k a w'
    | (Fail e, w') => (Fail e, w')
    | (Panic p, w') => (Panic p, w')
    end.

Notation "x <- m ;; k" := (bind m (fun x => k))
  (at level 100, m at next level, right associativity).

(** ** Bound statements

    The prepared-statement layer ([Stmt], [QueryStmt], [Tx], [stdStmt],
    [errStmt]) and [database/sql] are declared outside [stmt_bound.go].
    [Handles] collects the types they bring, [Collaborator] the operations
    that the bound statements call.  [World] is the state of the database
    collaborator, which every underlying operation may read and change; the
    [context.Context] argument only carries cancellation and is left out. *)

Class Handles : Type := {
  sqlStmt : Type;          (* what a non-nil [*sql.Stmt] points to *)
  sqlTx : Type;            (* [*sql.Tx] *)
  sqlResult : Type;        (* [sql.Result] *)
  World : Type;
  otherStatement : Type;   (* implementations of [Statement] other than the two below *)
  otherExecutor : Type;    (* implementations of [Executor] other than [Tx] *)
  stmtConfig : Type;       (* what [Stmt] holds besides its handle and its executor *)
  queryConfig : Type;      (* what [QueryStmt] holds besides its [Stmt] *)
  T : Type;                (* the row type; [Ts] is [list T] *)
  ICursor : Type;          (* [scan.ICursor[T]] *)
}.

(** An operation of the collaborator: a result, an error or a panic, and
    the world after it. *)
Definition M `{Handles} (A : Type) : Type := effect World A.

(** The interface [Statement] with the two implementations that [InTx]
    names, and any other one.  [stdStmt] wraps a [*sql.Stmt], nil in the
    zero value. *)
Inductive Statement `{Handles} : Type :=
| stdStmt (Stmt : option sqlStmt)
| errStmt (err : error)
| otherStmt (impl : otherStatement).

Record Tx `{Handles} : Type := { wrapped : sqlTx }.

Inductive Executor `{Handles} : Type :=
| TxExecutor (tx : Tx)
| OtherExecutor (impl : otherExecutor).

Record Stmt `{Handles} : Type := {
  Stmt_stmt : Statement;
  Stmt_exec : Executor;
  Stmt_config : stmtConfig;
}.

Record BoundStmt `{Handles} : Type := {
  BoundStmt_stmt : Stmt;
  BoundStmt_binder : structBinder;
}.

(** [QueryStmt[T, Ts]] embeds [Stmt]; [queryConfig] is the rest of it. *)
Record QueryStmt `{Handles} : Type := {
  QueryStmt_Stmt : Stmt;
  QueryStmt_config : queryConfig;
}.

Record BoundQueryStmt `{Handles} : Type := {
  BoundQueryStmt_QueryStmt : QueryStmt;
  BoundQueryStmt_binder : structBinder;
}.

(** [StmtContext] of [sql.Tx], and the operations of the wrapped
    statements. *)
Class Collaborator `{Handles} : Type := {
  StmtContext : sqlTx -> option sqlStmt -> M (option sqlStmt);
  Stmt_Exec : Stmt -> list any -> M sqlResult;
  QueryStmt_One : QueryStmt -> list any -> M T;
  QueryStmt_All : QueryStmt -> list any -> M (list T);
  QueryStmt_Cursor : QueryStmt -> list any -> M ICursor;
}.

(** The comma-ok assertion [std, ok := x.(stdStmt)]: on failure [std] is
    the zero [stdStmt], whose [Stmt] is nil. *)
Definition assertStdStmt `{Handles} (x : Statement) : option sqlStmt * bool :=
  match x with
  | stdStmt p => (p, true)
  | _ => (None, false)
  end.

(** The body shared by both [InTx] methods: the handle they install. *)
Definition rebind `{Collaborator} (old : Statement) (tx : Tx) : M Statement :=
  let stmt := errStmt (errors_New "stmt is not an stdStmt") in
  let '(std_Stmt, ok) := assertStdStmt old in
  if negb ok then
    p <- StmtContext (wrapped tx) std_Stmt ;; ret (stdStmt p)
  else ret stmt.

(** The receiver is a value: the method works on its own copy [s] and the
    caller's statement is not written. *)
Definition BoundStmt_InTx `{Collaborator} (s : BoundStmt) (tx : Tx) : M BoundStmt :=
  stmt <- rebind (Stmt_stmt (BoundStmt_stmt s)) tx ;;
  ret {| BoundStmt_stmt :=
           {| Stmt_stmt := stmt; Stmt_exec := TxExecutor tx;
              Stmt_config := Stmt_config (BoundStmt_stmt s) |};
         BoundStmt_binder := BoundStmt_binder s |}.

Definition BoundQueryStmt_InTx `{Collaborator} (s : BoundQueryStmt) (tx : Tx)
    : M BoundQueryStmt :=
  stmt <- rebind (Stmt_stmt (QueryStmt_Stmt (BoundQueryStmt_QueryStmt s))) tx ;;
  ret {| BoundQueryStmt_QueryStmt :=
           {| QueryStmt_Stmt :=
                {| Stmt_stmt := stmt; Stmt_exec := TxExecutor tx;
                   Stmt_config := Stmt_config (QueryStmt_Stmt (BoundQueryStmt_QueryStmt s)) |};
              QueryStmt_config := QueryStmt_config (BoundQueryStmt_QueryStmt s) |};
         BoundQueryStmt_binder := BoundQueryStmt_binder s |}.

(** [args, err := s.binder.toArgs(arg)] followed by the call that receives
    the positional values. *)
Definition withArgs `{Handles} {A} (b : structBinder) (arg : argument)
    (k : list any -> M A) : M A :=
  match toArgs b arg with
  | Return args => k args
  | Fail err => raise err
  | Panic p => crash p
  end.

Definition BoundStmt_Exec `{Collaborator} (s : BoundStmt) (arg : argument) : M sqlResult :=
  withArgs (BoundStmt_binder s) arg (Stmt_Exec (BoundStmt_stmt s)).

Definition BoundQueryStmt_One `{Collaborator} (s : BoundQueryStmt) (arg : argument) : M T :=
  withArgs (BoundQueryStmt_binder s) arg (QueryStmt_One (BoundQueryStmt_QueryStmt s)).

Definition BoundQueryStmt_All `{Collaborator} (s : BoundQueryStmt) (arg : argument)
    : M (list T) :=
  withArgs (BoundQueryStmt_binder s) arg (QueryStmt_All (BoundQueryStmt_QueryStmt s)).

Definition BoundQueryStmt_Cursor `{Collaborator} (s : BoundQueryStmt) (arg : argument)
    : M ICursor :=
  withArgs (BoundQueryStmt_binder s) arg (QueryStmt_Cursor (BoundQueryStmt_QueryStmt s)).


(** ** Preparing bound statements

    [prepare], [prepareQuery] and [Stmt.Close] are declared outside
    [stmt_bound.go]: they are operations of the collaborator.  Both
    preparing functions return the prepared statement together with the
    placeholders of the rendered query. *)

Class Preparation `{Handles} : Type := {
  Preparer : Type;
  Query : Type;
  Mapper : Type;           (* [scan.Mapper[T]] *)
  ExecOption : Type;       (* [ExecOption[T]] *)
  prepare : Preparer -> Query -> M (Stmt * list any);
  prepareQuery : Preparer -> Query -> Mapper -> list ExecOption -> M (QueryStmt * list any);
  Stmt_Close : Stmt -> M unit;
}.

(** [binder, err := makeStructBinder[Arg](args)] followed by the
    construction that receives the binder. *)
Definition withBinder `{Handles} {A} (fieldPositions : list string) (args : list any)
    (k : structBinder -> A) : M A :=
  match makeStructBinder fieldPositions args with
  | Return binder => ret (k binder)
  | Fail err => raise err
  | Panic p => crash p
  end.

(** [PrepareBound[Arg]]; [fieldPositions] stands for the type argument
    [Arg], as in [makeStructBinder]. *)
Definition PrepareBound `{Preparation} (fieldPositions : list string)
    (exec : Preparer) (q : Query) : M BoundStmt :=
  prepared <- prepare exec q ;;
  let '(stmt, args) := prepared in
  withBinder fieldPositions args (fun binder =>
    {| BoundStmt_stmt := stmt; BoundStmt_binder := binder |}).

Definition BoundStmt_Close `{Preparation} (s : BoundStmt) : M unit :=
  Stmt_Close (BoundStmt_stmt s).

Definition PrepareBoundQueryx `{Preparation} (fieldPositions : list string)
    (exec : Preparer) (q : Query) (m : Mapper) (opts : list ExecOption)
    : M BoundQueryStmt :=
  prepared <- prepareQuery exec q m opts ;;
  let '(s, args) := prepared in
  withBinder fieldPositions args (fun binder =>
    {| BoundQueryStmt_QueryStmt := s; BoundQueryStmt_binder := binder |}).

Definition PrepareBoundQuery `{Preparation} (fieldPositions : list string)
    (exec : Preparer) (q : Query) (m : Mapper) (opts : list ExecOption)
    : M BoundQueryStmt :=
  PrepareBoundQueryx fieldPositions exec q m opts.

(** ** The sqlite SELECT query

    Go's [int] is 64 bits wide and its addition wraps around. *)

Definition int_wrap (z : Z) : Z := ((z + 2 ^ 63) mod 2 ^ 64 - 2 ^ 63)%Z.

Definition int_add (a b : Z) : Z := int_wrap (a + b).

Definition len {A} (l : list A) : Z := Z.of_nat (length l).

Definition nl : string := String (Ascii.ascii_of_nat 10) EmptyString.

Module sqlite.

(** The clause package and the renderer [bob.ExpressIf] are outside this
    file.  The types are parameters; of each clause only the field that
    [WriteSQL] inspects is modelled, the other fields being kept in an
    opaque remainder. *)
Class Syntax : Type := {
  Expression : Type;
  Query : Type;
  CTE : Type;
  NamedWindow : Type;
  OrderDef : Type;
  Dialect : Type;
  Writer : Type;                   (* the state of the [io.Writer] sink *)
  Select : Type;
  From : Type;
  rest : Type;
}.

Record With `{Syntax} : Type := { CTEs : list CTE; With_rest : rest }.

Record Where `{Syntax} : Type := { Where_Conditions : list Expression }.

Record GroupBy `{Syntax} : Type := { Groups : list Expression; GroupBy_rest : rest }.

Record Having `{Syntax} : Type := { Having_Conditions : list Expression }.

Record Windows `{Syntax} : Type := { Windows_Windows : list NamedWindow }.

Record Combine `{Syntax} : Type := { Combine_Query : option Query; Combine_rest : rest }.

Record OrderBy `{Syntax} : Type := { Expressions : list OrderDef }.

Record Limit `{Syntax} : Type := { Limit_Count : option Expression }.

Record Offset `{Syntax} : Type := { Offset_Count : option Expression }.

Record SelectQuery `{Syntax} : Type := {
  SelectQuery_With : With;
  SelectQuery_Select : Select;
  SelectQuery_From : From;
  SelectQuery_Where : Where;
  SelectQuery_GroupBy : GroupBy;
  SelectQuery_Having : Having;
  SelectQuery_Windows : Windows;
  SelectQuery_Combine : Combine;
  SelectQuery_OrderBy : OrderBy;
  SelectQuery_Limit : Limit;
  SelectQuery_Offset : Offset;
}.

(** The [e any] argument of [ExpressIf]: one of the embedded clauses. *)
Inductive clause `{Syntax} : Type :=
| clauseWith (c : With)
| clauseSelect (c : Select)
| clauseFrom (c : From)
| clauseWhere (c : Where)
| clauseGroupBy (c : GroupBy)
| clauseHaving (c : Having)
| clauseWindows (c : Windows)
| clauseCombine (c : Combine)
| clauseOrderBy (c : OrderBy)
| clauseLimit (c : Limit)
| clauseOffset (c : Offset).

(** [ExpressIf d start e cond prefix suffix] acts on the sink [w]; [Write]
    is [w.Write], whose results [WriteSQL] ignores. *)
Class Renderer `{Syntax} : Type := {
  ExpressIf : Dialect -> Z -> clause -> bool -> string -> string -> effect Writer (list any);
  Write : string -> Writer -> Writer;
}.

Definition w_Write `{Renderer} (text : string) : effect Writer unit :=
  fun w => (Return tt, Write text w).

Definition isSome {A} (o : option A) : bool :=
  match o with Some _ => true | None => false end.

Definition WriteSQL `{Renderer} (s : SelectQuery) (d : Dialect) (start : Z)
    : effect Writer (list any) :=
  let args := [] in
  withArgs <- ExpressIf d (int_add start (len args)) (clauseWith (SelectQuery_With s))
                (0 <? len (CTEs (SelectQuery_With s)))%Z nl "" ;;
  let args := (args ++ withArgs) in
  selArgs <- ExpressIf d (int_add start (len args)) (clauseSelect (SelectQuery_Select s))
                true nl "" ;;
  let args := (args ++ selArgs) in
  fromArgs <- ExpressIf d (int_add start (len args)) (clauseFrom (SelectQuery_From s))
                true (nl +:+ "FROM ") "" ;;
  let args := (args ++ fromArgs) in
  whereArgs <- ExpressIf d (int_add start (len args)) (clauseWhere (SelectQuery_Where s))
                (0 <? len (Where_Conditions (SelectQuery_Where s)))%Z nl "" ;;
  let args := (args ++ whereArgs) in
  groupByArgs <- ExpressIf d (int_add start (len args)) (clauseGroupBy (SelectQuery_GroupBy s))
                (0 <? len (Groups (SelectQuery_GroupBy s)))%Z nl "" ;;
  let args := (args ++ groupByArgs) in
  havingArgs <- ExpressIf d (int_add start (len args)) (clauseHaving (SelectQuery_Having s))
                (0 <? len (Having_Conditions (SelectQuery_Having s)))%Z nl "" ;;
  let args := (args ++ havingArgs) in
  windowArgs <- ExpressIf d (int_add start (len args)) (clauseWindows (SelectQuery_Windows s))
                (0 <? len (Windows_Windows (SelectQuery_Windows s)))%Z nl "" ;;
  let args := (args ++ windowArgs) in
  combineArgs <- ExpressIf d (int_add start (len args)) (clauseCombine (SelectQuery_Combine s))
                (isSome (Combine_Query (SelectQuery_Combine s))) nl "" ;;
  let args := (args ++ combineArgs) in
  orderArgs <- ExpressIf d (int_add start (len args)) (clauseOrderBy (SelectQuery_OrderBy s))
                (0 <? len (Expressions (SelectQuery_OrderBy s)))%Z nl "" ;;
  let args := (args ++ orderArgs) in
  limitArgs <- ExpressIf d (int_add start (len args)) (clauseLimit (SelectQuery_Limit s))
                (isSome (Limit_Count (SelectQuery_Limit s))) nl "" ;;
  let args := (args ++ limitArgs) in
  offsetArgs <- ExpressIf d (int_add start (len args)) (clauseOffset (SelectQuery_Offset s))
                (isSome (Offset_Count (SelectQuery_Offset s))) nl "" ;;
  let args := (args ++ offsetArgs) in
  _ <- w_Write nl ;;
  ret args.

(** Specification side: the clauses of a query in the order in which they
    are rendered, each with the condition and the prefix it is rendered
    under. *)
Definition renderingOrder `{Syntax} (s : SelectQuery) : list (clause * bool * string) :=
  [ (clauseWith (SelectQuery_With s), (0 <? len (CTEs (SelectQuery_With s)))%Z, nl);
    (clauseSelect (SelectQuery_Select s), true, nl);
    (clauseFrom (SelectQuery_From s), true, nl +:+ "FROM ");
    (clauseWhere (SelectQuery_Where s),
       (0 <? len (Where_Conditions (SelectQuery_Where s)))%Z, nl);
    (clauseGroupBy (SelectQuery_GroupBy s), (0 <? len (Groups (SelectQuery_GroupBy s)))%Z, nl);
    (clauseHaving (SelectQuery_Having s),
       (0 <? len (Having_Conditions (SelectQuery_Having s)))%Z, nl);
    (clauseWindows (SelectQuery_Windows s),
       (0 <? len (Windows_Windows (SelectQuery_Windows s)))%Z, nl);
    (clauseCombine (SelectQuery_Combine s), isSome (Combine_Query (SelectQuery_Combine s)), nl);
    (clauseOrderBy (SelectQuery_OrderBy s),
       (0 <? len (Expressions (SelectQuery_OrderBy s)))%Z, nl);
    (clauseLimit (SelectQuery_Limit s), isSome (Limit_Count (SelectQuery_Limit s)), nl);
    (clauseOffset (SelectQuery_Offset s), isSome (Offset_Count (SelectQuery_Offset s)), nl) ].

(** Specification side: rendering a list of clauses one after the other on
    the same sink:
    each clause starts at the initial offset plus the number of
    placeholders collected so far, and its placeholders are appended to
    them; the first error ends the rendering. *)
Fixpoint renderClauses `{Renderer} (d : Dialect) (start : Z)
    (cs : list (clause * bool * string)) (collected : list any)
    : effect Writer (list any) :=
  match cs with
  | [] => ret collected
  | (e, cond, prefix) :: cs' =>
      piece <- ExpressIf d (int_add start (len collected)) e cond prefix "" ;;
      renderClauses d start cs' (collected ++ piece)
  end.

(** A run of [renderClauses] in which every clause succeeds: the list of
    the pieces that the clauses returned, in order. *)
Inductive rendered `{Renderer} (d : Dialect) (start : Z)
    : list (clause * bool * string) -> list any -> Writer -> list (list any) -> Writer -> Prop :=
| rendered_nil collected w : rendered d start [] collected w [] w
| rendered_cons e cond prefix cs collected w piece w1 pieces w2 :
    ExpressIf d (int_add start (len collected)) e cond prefix "" w = (Return piece, w1) ->
    rendered d start cs (collected ++ piece) w1 pieces w2 ->
    rendered d start ((e, cond, prefix) :: cs) collected w (piece :: pieces) w2.

End sqlite.

(** ** Concrete inputs

    The argument type of the running example: a struct whose fields are
    declared in the order [name], [id]. *)

Definition userFields : list string := ["name"; "id"].

Definition userValue : list any := [Str "x"; Int 7].

Definition userBinder : structBinder :=
  {| args := ["id"; "name"]; fields := userFields |}.

Definition repeatedBinder : structBinder :=
  {| args := ["id"; "id"; "id"]; fields := userFields |}.

(** A database double: handles are numbers, the world is the log of the
    positional argument lists that reached an underlying statement. *)
Definition logHandles : Handles := {|
  sqlStmt := nat;
  sqlTx := nat;
  sqlResult := nat;
  World := list (list any);
  otherStatement := unit;
  otherExecutor := unit;
  stmtConfig := unit;
  queryConfig := unit;
  T := nat;
  ICursor := nat;
|}.

Definition logCollaborator : @Collaborator logHandles := {|
  StmtContext := fun (tx : @sqlTx logHandles) (p : option (@sqlStmt logHandles)) =>
    match p with
    | Some h => fun w : @World logHandles => (Return (Some (h + tx)), w)
    | None => fun w : @World logHandles => (Panic NilPointerDereference, w)
    end;
  Stmt_Exec := fun _ args (w : @World logHandles) => (Return (length args), (w ++ [args]));
  QueryStmt_One := fun _ args (w : @World logHandles) =>
    (Return (length args : @T logHandles), (w ++ [args]));
  QueryStmt_All := fun _ args (w : @World logHandles) =>
    (Return ([length args] : list (@T logHandles)), (w ++ [args]));
  QueryStmt_Cursor := fun _ args (w : @World logHandles) =>
    (Return (length args : @ICursor logHandles), (w ++ [args]));
|}.

Definition logStmt : @Stmt logHandles :=
  @Build_Stmt logHandles (@stdStmt logHandles (Some 1)) (@OtherExecutor logHandles tt) tt.

Definition logBound : @BoundStmt logHandles :=
  {| BoundStmt_stmt := logStmt; BoundStmt_binder := userBinder |}.

Definition logBoundQuery : @BoundQueryStmt logHandles :=
  {| BoundQueryStmt_QueryStmt := @Build_QueryStmt logHandles logStmt tt;
     BoundQueryStmt_binder := userBinder |}.

Definition logTx : @Tx logHandles := @Build_Tx logHandles 5.

(** A renderer double: the sink is the text written so far; a clause
    whose condition holds writes its prefix and a marker, and uses one
    placeholder that records the offset it was given. *)
Definition textSyntax : sqlite.Syntax := {|
  sqlite.Expression := unit;
  sqlite.Query := unit;
  sqlite.CTE := unit;
  sqlite.NamedWindow := unit;
  sqlite.OrderDef := unit;
  sqlite.Dialect := unit;
  sqlite.Writer := string;
  sqlite.Select := unit;
  sqlite.From := unit;
  sqlite.rest := unit;
|}.

Definition textRenderer : @sqlite.Renderer textSyntax := {|
  sqlite.ExpressIf := fun _ start _ (cond : bool) prefix suffix (w : @sqlite.Writer textSyntax) =>
    if cond then (Return [Int start], w +:+ prefix +:+ "?" +:+ suffix) else (Return [], w);
  sqlite.Write := fun text (w : @sqlite.Writer textSyntax) => w +:+ text;
|}.

Definition textQuery : @sqlite.SelectQuery textSyntax :=
  @sqlite.Build_SelectQuery textSyntax
    (@sqlite.Build_With textSyntax [] tt)
    tt
    tt
    (@sqlite.Build_Where textSyntax [tt])
    (@sqlite.Build_GroupBy textSyntax [] tt)
    (@sqlite.Build_Having textSyntax [])
    (@sqlite.Build_Windows textSyntax [])
    (@sqlite.Build_Combine textSyntax None tt)
    (@sqlite.Build_OrderBy textSyntax [])
    (@sqlite.Build_Limit textSyntax (Some tt))
    (@sqlite.Build_Offset textSyntax None).

(** A preparing double on the logging database: a query is the list of
    placeholders it renders, or nothing when it does not render; preparing
    and closing leave a mark in the log. *)
Definition logPreparation : @Preparation logHandles := {|
  Preparer := unit;
  Query := option (list any);
  Mapper := unit;
  ExecOption := unit;
  prepare := fun _ (q : option (list any)) (w : @World logHandles) =>
    match q with
    | Some placeholders => (Return (logStmt, placeholders), w ++ [[Str "PREPARE"]])
    | None => (Fail (errors_New "no such table"), w)
    end;
  prepareQuery := fun _ (q : option (list any)) _ _ (w : @World logHandles) =>
    match q with
    | Some placeholders =>
        (Return (@Build_QueryStmt logHandles logStmt tt, placeholders),
         w ++ [[Str "PREPARE"]])
    | None => (Fail (errors_New "no such table"), w)
    end;
  Stmt_Close := fun _ (w : @World logHandles) => (Return tt, w ++ [[Str "CLOSE"]]);
|}.

(** A renderer double that fails on a WHERE clause after writing its
    prefix, and otherwise renders as [textRenderer] does. *)
Definition failingRenderer : @sqlite.Renderer textSyntax := {|
  sqlite.ExpressIf := fun _ start (e : @sqlite.clause textSyntax) (cond : bool) prefix suffix
      (w : @sqlite.Writer textSyntax) =>
    if cond then
      match e with
      | sqlite.clauseWhere _ => (Fail (errors_New "bad condition"), w +:+ prefix)
      | _ => (Return [Int start], w +:+ prefix +:+ "?" +:+ suffix)
      end
    else (Return [], w);
  sqlite.Write := fun text (w : @sqlite.Writer textSyntax) => w +:+ text;
|}.

(** * The binder

    ** The name scan and the two loops of [makeStructBinder] *)

Lemma hasField_elem_of fieldPositions name :
  hasField fieldPositions name = true <-> name ∈ fieldPositions.
Proof.
  induction fieldPositions as [|field rest IH]; simpl.
  - rewrite elem_of_nil. split; [discriminate | tauto].
  - rewrite elem_of_cons. destruct (String.eqb_spec field name) as [Heq|Hne].
    + split; [intros _; left; congruence | reflexivity].
    + rewrite IH. split; [tauto | intros [Heq|Hin]; [congruence | exact Hin]].
Qed.

Lemma hasField_false fieldPositions name :
  hasField fieldPositions name = false <-> name ∉ fieldPositions.
Proof.
  rewrite <- hasField_elem_of. destruct (hasField fieldPositions name); split; congruence.
Qed.

(** The first element with a decidable property splits the list. *)
Lemma Exists_first {A} (P : A -> Prop) (Pdec : forall x, Decision (P x)) (l : list A) :
  Exists P l ->
  exists pre a post, l = pre ++ a :: post /\ Forall (fun x => ~ P x) pre /\ P a.
Proof.
  induction l as [|x l IH]; intros HE.
  - inversion HE.
  - destruct (Pdec x) as [Hx|Hx].
    + exists [], x, l. repeat split; [constructor | exact Hx].
    + assert (Exists P l) as HE' by (inversion HE; [contradiction | assumption]).
      destruct (IH HE') as (pre & a & post & -> & Hpre & Ha).
      exists (x :: pre), a, post. repeat split; [constructor; assumption | exact Ha].
Qed.

Lemma namePositions_anonymous pre a post :
  Forall (fun x => placeholderName x <> None) pre ->
  placeholderName a = None ->
  forall pos argPositions,
    namePositions (pre ++ a :: post) pos argPositions = Fail (NamedArgRequiredError a).
Proof.
  intros Hpre Ha. induction Hpre as [|x pre Hx _ IH]; intros pos argPositions; simpl.
  - rewrite Ha. reflexivity.
  - destruct (placeholderName x); [apply IH | contradiction].
Qed.

(** The slice [argPositions] is written front to back: after the first
    [length filled] placeholders it holds their names followed by the
    untouched zero strings. *)
Lemma namePositions_named placeholders names :
  Forall2 isNamed placeholders names ->
  forall filled,
    namePositions placeholders (length filled)
      (filled ++ replicate (length placeholders) "") = Return (filled ++ names).
Proof.
  induction 1 as [|a n placeholders names Ha _ IH]; intros filled; simpl.
  - reflexivity.
  - rewrite Ha. rewrite insert_app_r_alt by lia. rewrite Nat.sub_diag. simpl.
    specialize (IH (filled ++ [n])). rewrite length_app in IH. simpl in IH.
    rewrite Nat.add_1_r, <- !app_assoc in IH. exact IH.
Qed.

Lemma named_or_anonymous placeholders :
  (exists names, Forall2 isNamed placeholders names)
  \/ Exists (fun a => placeholderName a = None) placeholders.
Proof.
  induction placeholders as [|a placeholders [[names IH]|IH]].
  - left. exists []. constructor.
  - destruct (placeholderName a) as [n|] eqn:Ha.
    + left. exists (n :: names). constructor; assumption.
    + right. left. exact Ha.
  - right. right. exact IH.
Qed.

Lemma checkPositions_found fieldPositions names :
  Forall (fun n => n ∈ fieldPositions) names ->
  checkPositions fieldPositions names = None.
Proof.
  induction 1 as [|n names Hn _ IH]; simpl; [reflexivity|].
  apply hasField_elem_of in Hn. rewrite Hn. exact IH.
Qed.

Lemma checkPositions_missing fieldPositions pre n post :
  Forall (fun n => n ∈ fieldPositions) pre ->
  n ∉ fieldPositions ->
  checkPositions fieldPositions (pre ++ n :: post) = Some n.
Proof.
  intros Hpre Hn. induction Hpre as [|m pre Hm _ IH]; simpl.
  - apply hasField_false in Hn. rewrite Hn. reflexivity.
  - apply hasField_elem_of in Hm. rewrite Hm. exact IH.
Qed.

Lemma checkPositions_None fieldPositions names :
  checkPositions fieldPositions names = None ->
  Forall (fun n => n ∈ fieldPositions) names.
Proof.
  induction names as [|n names IH]; simpl; intros H; [constructor|].
  destruct (hasField fieldPositions n) eqn:Hn; [|discriminate].
  constructor; [apply hasField_elem_of, Hn | apply IH, H].
Qed.

(** What a binder that [makeStructBinder] returned looks like. *)
Lemma makeStructBinder_Return fieldPositions placeholders b :
  makeStructBinder fieldPositions placeholders = Return b ->
  Forall2 isNamed placeholders (args b)
  /\ fields b = fieldPositions
  /\ Forall (fun n => n ∈ fieldPositions) (args b).
Proof.
  unfold makeStructBinder. intros H.
  destruct (named_or_anonymous placeholders) as [[names Hnames]|Hanon].
  - pose proof (namePositions_named _ _ Hnames []) as Hloop. simpl in Hloop.
    rewrite Hloop in H.
    destruct (checkPositions fieldPositions names) eqn:Hcheck; [discriminate|].
    injection H as <-. simpl. auto using checkPositions_None.
  - apply (Exists_first _ _) in Hanon as (pre & a & post & -> & Hpre & Ha).
    rewrite (namePositions_anonymous pre a post Hpre Ha) in H. discriminate.
Qed.

(** ** The loop of [toArgs] *)

Lemma toArgsLoop_not_missing b_fields val b_args :
  Forall (fun n => n ∈ b_fields) b_args ->
  forall index values e, toArgsLoop b_fields val b_args index values <> Fail e.
Proof.
  induction 1 as [|n b_args Hn _ IH]; intros index values e; simpl; [discriminate|].
  apply hasField_elem_of in Hn. rewrite Hn.
  destruct (val !! index); [apply IH | discriminate].
Qed.





(** ** Construction *)

(** C3 (as the code has it): when every placeholder is named and every
    name is a field of the argument type, [makeStructBinder] succeeds; the
    binder's [args] are the placeholder names in placeholder order, one per
    placeholder, and its [fields] are the whole field list of the argument
    type, one per field of the type, in which every entry of [args]
    occurs. *)
Theorem makeStructBinder_succeeds fieldPositions placeholders names :
  Forall2 isNamed placeholders names ->
  Forall (fun n => n ∈ fieldPositions) names ->
  exists b,
    makeStructBinder fieldPositions placeholders = Return b
    /\ args b = names
    /\ fields b = fieldPositions
    /\ length (args b) = length placeholders
    /\ length (fields b) = length fieldPositions
    /\ Forall (fun n => n ∈ fields b) (args b).
Proof.
  intros Hnames Hin. exists {| args := names; fields := fieldPositions |}.
  unfold makeStructBinder.
  pose proof (namePositions_named _ _ Hnames []) as Hloop. simpl in Hloop.
  rewrite Hloop, (checkPositions_found _ _ Hin). simpl.
  repeat split; [symmetry; eapply Forall2_length, Hnames | exact Hin].
Qed.

(** The two-field type with one placeholder of each named kind. *)
Lemma makeStructBinder_succeeds_example :
  (Forall2 isNamed [namedArg "id"; named ["name"]] ["id"; "name"]
   /\ Forall (fun n => n ∈ userFields) ["id"; "name"])
  /\ exists b,
       makeStructBinder userFields [namedArg "id"; named ["name"]] = Return b
       /\ args b = ["id"; "name"]
       /\ fields b = userFields
       /\ length (args b) = length [namedArg "id"; named ["name"]]
       /\ length (fields b) = length userFields
       /\ Forall (fun n => n ∈ fields b) (args b).
Proof.
  assert (Forall2 isNamed [namedArg "id"; named ["name"]] ["id"; "name"]) as Hnames
    by (repeat constructor).
  assert (Forall (fun n => n ∈ userFields) ["id"; "name"]) as Hin
    by (repeat constructor; apply hasField_elem_of; reflexivity).
  split; [split; assumption|].
  exact (makeStructBinder_succeeds userFields _ _ Hnames Hin).
Defined.

(** C3 as stated fails: one placeholder [id] against the two-field type
    gives a binder whose [fields] has two entries, not one. *)
Lemma makeStructBinder_fields_not_placeholder_count :
  Forall (fun a => exists n, isNamed a n /\ n ∈ userFields) [namedArg "id"]
  /\ ~ (exists b,
          makeStructBinder userFields [namedArg "id"] = Return b
          /\ length (args b) = length (fields b)
          /\ length (fields b) = length [namedArg "id"]).
Proof.
  split.
  - repeat constructor. exists "id". split; [reflexivity|].
    apply hasField_elem_of. reflexivity.
  - intros (b & Hb & _ & Hlen). vm_compute in Hb. injection Hb as <-.
    simpl in Hlen. discriminate.
Qed.

(** C4: a placeholder list with an anonymous placeholder is rejected with
    [NamedArgRequiredError] carrying the first anonymous placeholder,
    whatever the argument type and the other placeholders are; no binder
    is returned. *)
Theorem makeStructBinder_anonymous_rejected fieldPositions placeholders :
  Exists (fun a => placeholderName a = None) placeholders ->
  exists pre a post,
    placeholders = pre ++ a :: post
    /\ Forall (fun x => placeholderName x <> None) pre
    /\ placeholderName a = None
    /\ makeStructBinder fieldPositions placeholders = Fail (NamedArgRequiredError a)
    /\ forall b, makeStructBinder fieldPositions placeholders <> Return b.
Proof.
  intros Hanon.
  apply (Exists_first _ _) in Hanon as (pre & a & post & -> & Hpre & Ha).
  exists pre, a, post.
  assert (makeStructBinder fieldPositions (pre ++ a :: post)
          = Fail (NamedArgRequiredError a)) as Hfail.
  { unfold makeStructBinder. rewrite (namePositions_anonymous pre a post Hpre Ha).
    reflexivity. }
  repeat split; try assumption. intros b. rewrite Hfail. discriminate.
Qed.

(** An integer between two named placeholders, the second of which has no
    field either: the integer is reported. *)
Lemma makeStructBinder_anonymous_rejected_example :
  Exists (fun a => placeholderName a = None) [namedArg "id"; Int 3; namedArg "zz"]
  /\ exists pre a post,
       [namedArg "id"; Int 3; namedArg "zz"] = pre ++ a :: post
       /\ Forall (fun x => placeholderName x <> None) pre
       /\ placeholderName a = None
       /\ makeStructBinder userFields [namedArg "id"; Int 3; namedArg "zz"]
          = Fail (NamedArgRequiredError a)
       /\ forall b,
            makeStructBinder userFields [namedArg "id"; Int 3; namedArg "zz"] <> Return b.
Proof.
  assert (Exists (fun a => placeholderName a = None) [namedArg "id"; Int 3; namedArg "zz"])
    as Hanon by (right; left; reflexivity).
  split; [exact Hanon|].
  exact (makeStructBinder_anonymous_rejected userFields _ Hanon).
Defined.

(** C5: when all placeholders are named and some name is no field of the
    argument type (equality of strings, so case matters),
    [makeStructBinder] fails with [MissingArgError] carrying the first such
    name in placeholder order. *)
Theorem makeStructBinder_missing_field fieldPositions placeholders names :
  Forall2 isNamed placeholders names ->
  Exists (fun n => n ∉ fieldPositions) names ->
  exists pre n post,
    names = pre ++ n :: post
    /\ Forall (fun m => m ∈ fieldPositions) pre
    /\ (n ∉ fieldPositions)
    /\ makeStructBinder fieldPositions placeholders = Fail (MissingArgError n).
Proof.
  intros Hnames Hmiss.
  apply (Exists_first _ _) in Hmiss as (pre & n & post & -> & Hpre & Hn).
  exists pre, n, post.
  assert (Forall (fun m => m ∈ fieldPositions) pre) as Hpre'.
  { eapply Forall_impl; [exact Hpre|]. intros m Hm. simpl in Hm.
    destruct (decide (m ∈ fieldPositions)); [assumption | contradiction]. }
  repeat split; try assumption.
  unfold makeStructBinder.
  pose proof (namePositions_named _ _ Hnames []) as Hloop. simpl in Hloop.
  rewrite Hloop, (checkPositions_missing _ _ _ _ Hpre' Hn). reflexivity.
Qed.

(** [ID] is no field of a type whose field is [id], and it is reported
    before [missing]. *)
Lemma makeStructBinder_missing_field_example :
  (Forall2 isNamed [namedArg "id"; namedArg "ID"; namedArg "missing"] ["id"; "ID"; "missing"]
   /\ Exists (fun n => n ∉ userFields) ["id"; "ID"; "missing"])
  /\ exists pre n post,
       ["id"; "ID"; "missing"] = pre ++ n :: post
       /\ Forall (fun m => m ∈ userFields) pre
       /\ (n ∉ userFields)
       /\ makeStructBinder userFields [namedArg "id"; namedArg "ID"; namedArg "missing"]
          = Fail (MissingArgError n).
Proof.
  assert (Forall2 isNamed [namedArg "id"; namedArg "ID"; namedArg "missing"]
            ["id"; "ID"; "missing"]) as Hnames by (repeat constructor).
  assert (Exists (fun n => n ∉ userFields) ["id"; "ID"; "missing"]) as Hmiss
    by (right; left; apply hasField_false; reflexivity).
  split; [split; assumption|].
  exact (makeStructBinder_missing_field userFields _ _ Hnames Hmiss).
Defined.

(** ** Extraction *)

(** C6: on a nil pointer [toArgs] returns the error [object is nil] and no
    values, whatever the binder is. *)
Theorem toArgs_nil_pointer (b : structBinder) :
  toArgs b (PointerArg None) = Fail (errors_New "object is nil")
  /\ forall values, toArgs b (PointerArg None) <> Return values.
Proof. split; [reflexivity | intros values; discriminate]. Qed.

(** C8: for a binder that [makeStructBinder] returned, [toArgs] never
    returns [MissingArgError]: each name in [args] was found in the field
    list at construction, and [fields] is that list. *)
Theorem toArgs_never_missing fieldPositions placeholders b arg name :
  makeStructBinder fieldPositions placeholders = Return b ->
  toArgs b arg <> Fail (MissingArgError name).
Proof.
  intros Hb. apply makeStructBinder_Return in Hb as (_ & Hf & Hin).
  rewrite <- Hf in Hin.
  destruct arg as [val|[val|]]; simpl; try discriminate;
    apply toArgsLoop_not_missing, Hin.
Qed.

(** The binder of the running example on its struct. *)
Lemma toArgs_never_missing_example :
  makeStructBinder userFields [namedArg "id"; namedArg "name"] = Return userBinder
  /\ toArgs userBinder (StructArg userValue) <> Fail (MissingArgError "id").
Proof.
  assert (makeStructBinder userFields [namedArg "id"; namedArg "name"] = Return userBinder)
    as Hb by reflexivity.
  split; [exact Hb|].
  exact (toArgs_never_missing userFields _ userBinder (StructArg userValue) "id" Hb).
Defined.

(** C1, at the example of the specification: placeholders [id], [name],
    fields declared in the order [name], [id], argument [{id: 7, name: x}].
    The loop reads field 0 for placeholder 0 and field 1 for placeholder 1,
    so it returns the value of [name] where [id] is asked for, and the
    value of [id] where [name] is asked for. *)
Theorem toArgs_example_reads_by_placeholder_index :
  makeStructBinder userFields [namedArg "id"; namedArg "name"] = Return userBinder
  /\ toArgs userBinder (StructArg userValue) = Return [Str "x"; Int 7]
  /\ fieldNamed userFields userValue "id" = Some (Int 7)
  /\ fieldNamed userFields userValue "name" = Some (Str "x")
  /\ toArgs userBinder (StructArg userValue) <> Return [Int 7; Str "x"].
Proof. repeat split. discriminate. Qed.

(** C10, at three placeholders of the same name against the two-field
    type: construction succeeds, and the third read, [val.Field(2)], is out
    of range. *)
Theorem toArgs_repeated_names_out_of_range :
  makeStructBinder userFields [namedArg "id"; namedArg "id"; namedArg "id"]
  = Return repeatedBinder
  /\ hasType userFields (StructArg userValue)
  /\ toArgs repeatedBinder (StructArg userValue) = Panic (FieldIndexOutOfRange 2).
Proof. repeat split. Qed.

(** * Bound statements *)

(** C7: each operation binds first.  When [toArgs] fails the operation
    returns that error and the world is the one it was called in, for every
    collaborator: nothing was asked of the underlying statement.  When
    [toArgs] succeeds the operation is the underlying operation on the
    positional values, result, error and world included. *)
Theorem bound_operations_bind_first `{Collaborator}
    (s : BoundStmt) (q : BoundQueryStmt) (arg : argument) (w : World) :
  (forall err,
     toArgs (BoundStmt_binder s) arg = Fail err ->
     BoundStmt_Exec s arg w = (Fail err, w))
  /\ (forall err,
        toArgs (BoundQueryStmt_binder q) arg = Fail err ->
        BoundQueryStmt_One q arg w = (Fail err, w)
        /\ BoundQueryStmt_All q arg w = (Fail err, w)
        /\ BoundQueryStmt_Cursor q arg w = (Fail err, w))
  /\ (forall values,
        toArgs (BoundStmt_binder s) arg = Return values ->
        BoundStmt_Exec s arg w = Stmt_Exec (BoundStmt_stmt s) values w)
  /\ (forall values,
        toArgs (BoundQueryStmt_binder q) arg = Return values ->
        BoundQueryStmt_One q arg w = QueryStmt_One (BoundQueryStmt_QueryStmt q) values w
        /\ BoundQueryStmt_All q arg w = QueryStmt_All (BoundQueryStmt_QueryStmt q) values w
        /\ BoundQueryStmt_Cursor q arg w
           = QueryStmt_Cursor (BoundQueryStmt_QueryStmt q) values w).
Proof.
  unfold BoundStmt_Exec, BoundQueryStmt_One, BoundQueryStmt_All, BoundQueryStmt_Cursor,
    withArgs.
  repeat split; intros; match goal with Hb : toArgs _ _ = _ |- _ => rewrite Hb end;
    reflexivity.
Qed.

(** On the logging double: a nil pointer leaves the log empty, a struct
    puts exactly its positional values in it. *)
Lemma bound_operations_bind_first_example :
  (toArgs userBinder (PointerArg None) = Fail (errors_New "object is nil")
   /\ @BoundStmt_Exec _ logCollaborator logBound (PointerArg None) []
      = (Fail (errors_New "object is nil"), [])
   /\ @BoundQueryStmt_All _ logCollaborator logBoundQuery (PointerArg None) []
      = (Fail (errors_New "object is nil"), []))
  /\ (toArgs userBinder (StructArg userValue) = Return [Str "x"; Int 7]
      /\ @BoundStmt_Exec _ logCollaborator logBound (StructArg userValue) []
         = (Return 2, [[Str "x"; Int 7]])
      /\ @BoundQueryStmt_All _ logCollaborator logBoundQuery (StructArg userValue) []
         = (Return [2], [[Str "x"; Int 7]])).
Proof.
  assert (toArgs userBinder (PointerArg None) = Fail (errors_New "object is nil"))
    as Hnil by reflexivity.
  assert (toArgs userBinder (StructArg userValue) = Return [Str "x"; Int 7])
    as Hok by reflexivity.
  split.
  - destruct (@bound_operations_bind_first _ logCollaborator logBound logBoundQuery
                (PointerArg None) []) as (HExec & HQuery & _).
    split; [exact Hnil|]. split; [exact (HExec _ Hnil) | exact (proj1 (proj2 (HQuery _ Hnil)))].
  - destruct (@bound_operations_bind_first _ logCollaborator logBound logBoundQuery
                (StructArg userValue) []) as (_ & _ & HExec & HQuery).
    split; [exact Hok|].
    split; [exact (HExec _ Hok) | exact (proj1 (proj2 (HQuery _ Hok)))].
Defined.

(** C2, on a statement whose handle is the native [stdStmt]: [InTx] keeps
    the binder and installs the transaction as executor, but the handle of
    the derived statement is the error handle [stmt is not an stdStmt], and
    [StmtContext] is not called (the world is unchanged).  On any other
    handle [InTx] does call [StmtContext], with a nil statement. *)
Theorem InTx_native_handle_becomes_error_handle `{Collaborator}
    (p : option sqlStmt) (e : Executor) (k : stmtConfig) (b : structBinder)
    (c : queryConfig) (err : error) (tx : Tx) (w : World) :
  BoundStmt_InTx
    {| BoundStmt_stmt := {| Stmt_stmt := stdStmt p; Stmt_exec := e; Stmt_config := k |};
       BoundStmt_binder := b |} tx w
  = (Return {| BoundStmt_stmt :=
                 {| Stmt_stmt := errStmt (errors_New "stmt is not an stdStmt");
                    Stmt_exec := TxExecutor tx; Stmt_config := k |};
               BoundStmt_binder := b |}, w)
  /\ BoundQueryStmt_InTx
       {| BoundQueryStmt_QueryStmt :=
            {| QueryStmt_Stmt :=
                 {| Stmt_stmt := stdStmt p; Stmt_exec := e; Stmt_config := k |};
               QueryStmt_config := c |};
          BoundQueryStmt_binder := b |} tx w
     = (Return {| BoundQueryStmt_QueryStmt :=
                    {| QueryStmt_Stmt :=
                         {| Stmt_stmt := errStmt (errors_New "stmt is not an stdStmt");
                            Stmt_exec := TxExecutor tx; Stmt_config := k |};
                       QueryStmt_config := c |};
                  BoundQueryStmt_binder := b |}, w)
  /\ BoundStmt_InTx
       {| BoundStmt_stmt := {| Stmt_stmt := errStmt err; Stmt_exec := e; Stmt_config := k |};
          BoundStmt_binder := b |} tx w
     = (stmt <- StmtContext (wrapped tx) None ;;
        ret {| BoundStmt_stmt :=
                 {| Stmt_stmt := stdStmt stmt; Stmt_exec := TxExecutor tx;
                    Stmt_config := k |};
               BoundStmt_binder := b |}) w.
Proof.
  repeat split.
  unfold BoundStmt_InTx, rebind, bind, ret. simpl.
  destruct (StmtContext (wrapped tx) None w) as [[stmt|e'|p'] w']; reflexivity.
Qed.

(** * The sqlite SELECT query *)

Lemma int_add_exact (a b : Z) :
  (- 2 ^ 63 <= a + b < 2 ^ 63)%Z -> int_add a b = (a + b)%Z.
Proof.
  intros Hrange. unfold int_add, int_wrap. rewrite Z.mod_small by lia. lia.
Qed.

Section SelectQueryFacts.
Import sqlite.
Context `{Renderer}.

Lemma renderClauses_Return d start cs :
  forall collected w args w1,
    renderClauses d start cs collected w = (Return args, w1) ->
    exists pieces,
      rendered d start cs collected w pieces w1 /\ args = collected ++ concat pieces.
Proof.
  induction cs as [|[[e cond] prefix] cs IH]; intros collected w args w1 Hrun; simpl in Hrun.
  - injection Hrun as <- <-. exists []. split; [constructor|]. simpl. by rewrite app_nil_r.
  - unfold bind in Hrun.
    destruct (ExpressIf d (int_add start (len collected)) e cond prefix "" w)
      as [[piece|err|p] w0] eqn:Hstep; try discriminate.
    apply IH in Hrun as (pieces & Hrest & ->).
    exists (piece :: pieces). split; [econstructor; eassumption|].
    simpl. by rewrite app_assoc.
Qed.

Lemma rendered_renderClauses d start cs collected w pieces w1 :
  rendered d start cs collected w pieces w1 ->
  renderClauses d start cs collected w = (Return (collected ++ concat pieces), w1).
Proof.
  induction 1 as [collected w|e cond prefix cs collected w piece w1 pieces w2 Hstep _ IH];
    simpl.
  - by rewrite app_nil_r.
  - unfold bind. rewrite Hstep, IH. by rewrite app_assoc.
Qed.

Lemma rendered_length d start cs collected w pieces w1 :
  rendered d start cs collected w pieces w1 -> length pieces = length cs.
Proof. induction 1; simpl; congruence. Qed.

(** In a successful run the clause at position [k] was rendered from the
    offset [start] plus the number of placeholders of the clauses before
    it. *)
Lemma rendered_offsets d start cs collected w pieces w1 :
  rendered d start cs collected w pieces w1 ->
  forall k e cond prefix piece,
    cs !! k = Some (e, cond, prefix) ->
    pieces !! k = Some piece ->
    exists wk wk',
      ExpressIf d (int_add start (len (collected ++ concat (take k pieces))))
        e cond prefix "" wk = (Return piece, wk').
Proof.
  induction 1 as [collected w|e0 cond0 prefix0 cs collected w piece0 w1 pieces w2 Hstep _ IH];
    intros k e cond prefix piece Hk Hpiece.
  - destruct k; discriminate.
  - destruct k as [|k]; simpl in *.
    + injection Hk as <- <- <-. injection Hpiece as <-.
      exists w, w1. by rewrite app_nil_r.
    + destruct (IH k e cond prefix piece Hk Hpiece) as (wk & wk' & Hrun).
      exists wk, wk'. by rewrite app_assoc.
Qed.

(** Case analysis on the outcome of the next clause to be rendered. *)
Ltac next_clause :=
  match goal with
  | |- context [ExpressIf ?d ?o ?e ?c ?p ?x ?w] =>
      destruct (ExpressIf d o e c p x w) as [[?|?|?] ?]; try reflexivity
  end.

(** C9: [WriteSQL] renders the clauses With, Select, From, Where, GroupBy,
    Having, Windows, Combine, OrderBy, Limit, Offset in this order on the
    one sink, giving each the offset [start] plus the number of placeholders
    collected so far (in Go's [int] arithmetic), and stops at the first
    error.  When it returns, the list it returns is the concatenation of
    the lists that the eleven clauses returned, in that order, which is the
    order in which their text went to the sink. *)
Theorem WriteSQL_placeholders_in_rendering_order
    (s : SelectQuery) (d : Dialect) (start : Z) (w : Writer) :
  WriteSQL s d start w
  = (args <- renderClauses d start (renderingOrder s) [] ;; _ <- w_Write nl ;; ret args) w
  /\ forall args w',
       WriteSQL s d start w = (Return args, w') ->
       exists pieces w1,
         rendered d start (renderingOrder s) [] w pieces w1
         /\ length pieces = 11
         /\ args = concat pieces
         /\ w' = Write nl w1
         /\ forall k e cond prefix piece,
              renderingOrder s !! k = Some (e, cond, prefix) ->
              pieces !! k = Some piece ->
              exists wk wk',
                ExpressIf d (int_add start (len (concat (take k pieces))))
                  e cond prefix "" wk = (Return piece, wk').
Proof.
  assert (WriteSQL s d start w
          = (args <- renderClauses d start (renderingOrder s) [] ;;
             _ <- w_Write nl ;; ret args) w) as Hfold.
  { cbv [WriteSQL renderClauses renderingOrder bind ret w_Write].
    repeat next_clause. }
  split; [exact Hfold|].
  intros args w' Hrun. rewrite Hfold in Hrun. unfold bind at 1 in Hrun.
  destruct (renderClauses d start (renderingOrder s) [] w) as [[all|err|p] w1] eqn:Hall;
    try discriminate.
  unfold bind, w_Write, ret in Hrun. injection Hrun as <- <-.
  apply renderClauses_Return in Hall as (pieces & Hrendered & ->).
  exists pieces, w1. repeat split; try assumption.
  - apply rendered_length in Hrendered. exact Hrendered.
  - intros k e cond prefix piece Hk Hpiece.
    exact (rendered_offsets _ _ _ _ _ _ _ Hrendered k e cond prefix piece Hk Hpiece).
Qed.

End SelectQueryFacts.

(** On the text double, from offset 1: Select, From, Where and Limit are
    rendered, with offsets 1, 2, 3 and 4. *)
Lemma WriteSQL_placeholders_in_rendering_order_example :
  @sqlite.WriteSQL _ textRenderer textQuery tt 1 ""
  = (Return [Int 1; Int 2; Int 3; Int 4],
     nl +:+ "?" +:+ nl +:+ "FROM ?" +:+ nl +:+ "?" +:+ nl +:+ "?" +:+ nl)
  /\ exists pieces w1,
       @sqlite.rendered _ textRenderer tt 1 (sqlite.renderingOrder textQuery) [] "" pieces w1
       /\ length pieces = 11
       /\ [Int 1; Int 2; Int 3; Int 4] = concat pieces
       /\ nl +:+ "?" +:+ nl +:+ "FROM ?" +:+ nl +:+ "?" +:+ nl +:+ "?" +:+ nl
          = @sqlite.Write _ textRenderer nl w1
       /\ forall k e cond prefix piece,
            sqlite.renderingOrder textQuery !! k = Some (e, cond, prefix) ->
            pieces !! k = Some piece ->
            exists wk wk',
              @sqlite.ExpressIf _ textRenderer tt (int_add 1 (len (concat (take k pieces))))
                e cond prefix "" wk = (Return piece, wk').
Proof.
  assert (@sqlite.WriteSQL _ textRenderer textQuery tt 1 ""
          = (Return [Int 1; Int 2; Int 3; Int 4],
             nl +:+ "?" +:+ nl +:+ "FROM ?" +:+ nl +:+ "?" +:+ nl +:+ "?" +:+ nl))
    as Hrun by reflexivity.
  split; [exact Hrun|].
  exact (proj2 (@WriteSQL_placeholders_in_rendering_order _ textRenderer textQuery tt 1 "")
           _ _ Hrun).
Defined.

(** * Further properties of the binder *)

Lemma makeStructBinder_first_anonymous fieldPositions pre a post :
  Forall (fun x => placeholderName x <> None) pre ->
  placeholderName a = None ->
  makeStructBinder fieldPositions (pre ++ a :: post) = Fail (NamedArgRequiredError a).
Proof.
  intros Hpre Ha. unfold makeStructBinder.
  rewrite (namePositions_anonymous pre a post Hpre Ha). reflexivity.
Qed.

Lemma makeStructBinder_first_missing fieldPositions placeholders pre n post :
  Forall2 isNamed placeholders (pre ++ n :: post) ->
  Forall (fun m => m ∈ fieldPositions) pre ->
  n ∉ fieldPositions ->
  makeStructBinder fieldPositions placeholders = Fail (MissingArgError n).
Proof.
  intros Hnames Hpre Hn. unfold makeStructBinder.
  pose proof (namePositions_named _ _ Hnames []) as Hloop. simpl in Hloop.
  rewrite Hloop, (checkPositions_missing _ _ _ _ Hpre Hn). reflexivity.
Qed.

Lemma makeStructBinder_all_found fieldPositions placeholders names :
  Forall2 isNamed placeholders names ->
  Forall (fun n => n ∈ fieldPositions) names ->
  makeStructBinder fieldPositions placeholders
  = Return {| args := names; fields := fieldPositions |}.
Proof.
  intros Hnames Hin. unfold makeStructBinder.
  pose proof (namePositions_named _ _ Hnames []) as Hloop. simpl in Hloop.
  rewrite Hloop, (checkPositions_found _ _ Hin). reflexivity.
Qed.

Lemma Exists_first_not_elem_of (fieldPositions names : list string) :
  Exists (fun n => n ∉ fieldPositions) names ->
  exists pre n post,
    names = pre ++ n :: post
    /\ Forall (fun m => m ∈ fieldPositions) pre
    /\ (n ∉ fieldPositions).
Proof.
  intros Hmiss.
  apply (Exists_first _ _) in Hmiss as (pre & n & post & -> & Hpre & Hn).
  exists pre, n, post. repeat split; [|exact Hn].
  eapply Forall_impl; [exact Hpre|]. intros m Hm. simpl in Hm.
  destruct (decide (m ∈ fieldPositions)); [assumption | contradiction].
Qed.

(** X1: [makeStructBinder] returns a binder exactly when every placeholder
    is named and every name is a field of the argument type; the binder
    then holds the names and the field list.  It never panics. *)
Theorem makeStructBinder_returns_iff fieldPositions placeholders b :
  (makeStructBinder fieldPositions placeholders = Return b
   <-> Forall2 isNamed placeholders (args b)
       /\ fields b = fieldPositions
       /\ Forall (fun n => n ∈ fieldPositions) (args b))
  /\ forall p, makeStructBinder fieldPositions placeholders <> Panic p.
Proof.
  split; [split|].
  - apply makeStructBinder_Return.
  - intros (Hnames & Hf & Hin). destruct b as [ns fs]. simpl in *. subst fs.
    apply makeStructBinder_all_found; assumption.
  - intros p. destruct (named_or_anonymous placeholders) as [[names Hnames]|Hanon].
    + unfold makeStructBinder.
      pose proof (namePositions_named _ _ Hnames []) as Hloop. simpl in Hloop.
      rewrite Hloop. destruct (checkPositions fieldPositions names); discriminate.
    + apply (Exists_first _ _) in Hanon as (pre & a & post & -> & Hpre & Ha).
      rewrite (makeStructBinder_first_anonymous _ pre a post Hpre Ha). discriminate.
Qed.

(** The binder of the running example, from right to left. *)
Lemma makeStructBinder_returns_iff_example :
  (Forall2 isNamed [namedArg "id"; namedArg "name"] (args userBinder)
   /\ fields userBinder = userFields
   /\ Forall (fun n => n ∈ userFields) (args userBinder))
  /\ makeStructBinder userFields [namedArg "id"; namedArg "name"] = Return userBinder.
Proof.
  assert (Forall2 isNamed [namedArg "id"; namedArg "name"] (args userBinder)
          /\ fields userBinder = userFields
          /\ Forall (fun n => n ∈ userFields) (args userBinder)) as Hright.
  { repeat split; repeat constructor; apply hasField_elem_of; reflexivity. }
  split; [exact Hright|].
  exact (proj2 (proj1 (makeStructBinder_returns_iff userFields
                         [namedArg "id"; namedArg "name"] userBinder)) Hright).
Defined.

(** X2: a [named] value that carries no name or several names is treated
    as an anonymous placeholder, also when all its names are fields of the
    argument type. *)
Theorem makeStructBinder_named_group_rejected fieldPositions pre names post :
  Forall (fun x => placeholderName x <> None) pre ->
  length names <> 1 ->
  makeStructBinder fieldPositions (pre ++ named names :: post)
  = Fail (NamedArgRequiredError (named names)).
Proof.
  intros Hpre Hlen. apply makeStructBinder_first_anonymous; [exact Hpre|].
  destruct names as [|n [|m names]]; simpl in *; congruence.
Qed.

Lemma makeStructBinder_named_group_rejected_example :
  (Forall (fun x => placeholderName x <> None) [namedArg "id"]
   /\ length ["name"; "id"] <> 1)
  /\ makeStructBinder userFields ([namedArg "id"] ++ named ["name"; "id"] :: [])
     = Fail (NamedArgRequiredError (named ["name"; "id"])).
Proof.
  assert (Forall (fun x => placeholderName x <> None) [namedArg "id"]) as Hpre
    by (repeat constructor; discriminate).
  assert (length ["name"; "id"] <> 1) as Hlen by (simpl; lia).
  split; [split; assumption|].
  exact (makeStructBinder_named_group_rejected userFields _ _ [] Hpre Hlen).
Defined.

Lemma toArgsLoop_length b_fields val b_args :
  forall index values result,
    toArgsLoop b_fields val b_args index values = Return result ->
    length result = length values.
Proof.
  induction b_args as [|n b_args IH]; intros index values result Hrun; simpl in Hrun.
  - congruence.
  - destruct (hasField b_fields n); [|discriminate].
    destruct (val !! index); [|discriminate].
    apply IH in Hrun. by rewrite length_insert in Hrun.
Qed.

Lemma toArgs_unfold b arg val :
  structOf arg = Some val ->
  toArgs b arg = toArgsLoop (fields b) val (args b) 0 (replicate (length (args b)) Nil).
Proof. destruct arg as [v|[v|]]; simpl; intros Hval; inversion Hval; reflexivity. Qed.

(** X3: whatever the binder and the argument, a list of values that
    [toArgs] returns has one entry per placeholder. *)
Theorem toArgs_length b arg values :
  toArgs b arg = Return values -> length values = length (args b).
Proof.
  intros Hrun. destruct (structOf arg) as [val|] eqn:Hval.
  - rewrite (toArgs_unfold b arg val Hval) in Hrun.
    apply toArgsLoop_length in Hrun. by rewrite length_replicate in Hrun.
  - destruct arg as [v|[v|]]; discriminate.
Qed.

Lemma toArgs_length_example :
  toArgs userBinder (PointerArg (Some userValue)) = Return [Str "x"; Int 7]
  /\ length [Str "x"; Int 7] = length (args userBinder).
Proof.
  assert (toArgs userBinder (PointerArg (Some userValue)) = Return [Str "x"; Int 7])
    as Hrun by reflexivity.
  split; [exact Hrun|]. exact (toArgs_length _ _ _ Hrun).
Defined.








(** * Further properties of the bound statements *)



(** X8: [PrepareBound] returns the error of [prepare] unchanged.  When
    [prepare] succeeds and the placeholders cannot be bound, it returns the
    binder's error: [NamedArgRequiredError] for an anonymous placeholder,
    [MissingArgError] for a name that is no field.  The world is then the
    one [prepare] left: the prepared statement is dropped without being
    closed. *)
Theorem PrepareBound_errors `{Preparation}
    fieldPositions (exec : Preparer) (q : Query) (w : World) :
  (forall err w',
     prepare exec q w = (Fail err, w') ->
     PrepareBound fieldPositions exec q w = (Fail err, w'))
  /\ (forall stmt placeholders w',
        prepare exec q w = (Return (stmt, placeholders), w') ->
        Exists (fun a => placeholderName a = None) placeholders ->
        exists a,
          a ∈ placeholders /\ placeholderName a = None
          /\ PrepareBound fieldPositions exec q w = (Fail (NamedArgRequiredError a), w'))
  /\ (forall stmt placeholders names w',
        prepare exec q w = (Return (stmt, placeholders), w') ->
        Forall2 isNamed placeholders names ->
        Exists (fun n => n ∉ fieldPositions) names ->
        exists n,
          n ∈ names /\ (n ∉ fieldPositions)
          /\ PrepareBound fieldPositions exec q w = (Fail (MissingArgError n), w')).
Proof.
  unfold PrepareBound, bind, withBinder. repeat split.
  - intros err w' Hprep. rewrite Hprep. reflexivity.
  - intros stmt placeholders w' Hprep Hanon. rewrite Hprep.
    apply (Exists_first _ _) in Hanon as (pre & a & post & -> & Hpre & Ha).
    exists a. rewrite (makeStructBinder_first_anonymous _ pre a post Hpre Ha).
    repeat split; [|exact Ha]. apply elem_of_app. right. left.
  - intros stmt placeholders names w' Hprep Hnames Hmiss. rewrite Hprep.
    apply Exists_first_not_elem_of in Hmiss as (pre & n & post & -> & Hpre & Hn).
    exists n. rewrite (makeStructBinder_first_missing _ _ pre n post Hnames Hpre Hn).
    repeat split; [|exact Hn]. apply elem_of_app. right. left.
Qed.

(** On the logging double: a statement that does not prepare, and one that
    prepares with an anonymous placeholder and is left open (the log has
    the mark of [prepare] and none of [Close]). *)
Lemma PrepareBound_errors_example :
  (@prepare _ logPreparation tt None [] = (Fail (errors_New "no such table"), [])
   /\ @PrepareBound _ logPreparation userFields tt None []
      = (Fail (errors_New "no such table"), []))
  /\ (@prepare _ logPreparation tt (Some [namedArg "id"; Int 3]) []
      = (Return (logStmt, [namedArg "id"; Int 3]), [[Str "PREPARE"]])
      /\ Exists (fun a => placeholderName a = None) [namedArg "id"; Int 3])
  /\ exists a,
       a ∈ [namedArg "id"; Int 3] /\ placeholderName a = None
       /\ @PrepareBound _ logPreparation userFields tt (Some [namedArg "id"; Int 3]) []
          = (Fail (NamedArgRequiredError a), [[Str "PREPARE"]]).
Proof.
  assert (@prepare _ logPreparation tt None [] = (Fail (errors_New "no such table"), []))
    as Hfail by reflexivity.
  assert (@prepare _ logPreparation tt (Some [namedArg "id"; Int 3]) []
          = (Return (logStmt, [namedArg "id"; Int 3]), [[Str "PREPARE"]]))
    as Hprep by reflexivity.
  assert (Exists (fun a => placeholderName a = None) [namedArg "id"; Int 3]) as Hanon
    by (right; left; reflexivity).
  split; [split; [exact Hfail|]|split; [split; assumption|]].
  - exact (proj1 (@PrepareBound_errors _ logPreparation userFields tt None []) _ _ Hfail).
  - exact (proj1 (proj2 (@PrepareBound_errors _ logPreparation userFields tt
                           (Some [namedArg "id"; Int 3]) [])) _ _ _ Hprep Hanon).
Defined.



(** X10: [PrepareBoundQuery] is [PrepareBoundQueryx] and has the outcomes
    of [PrepareBound]: the error of [prepareQuery] unchanged; the binder's
    error, with the world as [prepareQuery] left it, when a placeholder is
    anonymous or a name is no field; otherwise the prepared query statement
    with the binder of the placeholder names. *)
Theorem PrepareBoundQuery_outcomes `{Preparation}
    fieldPositions (exec : Preparer) (q : Query) (m : Mapper) (opts : list ExecOption)
    (w : World) :
  (forall err w',
     prepareQuery exec q m opts w = (Fail err, w') ->
     PrepareBoundQuery fieldPositions exec q m opts w = (Fail err, w'))
  /\ (forall s placeholders w',
        prepareQuery exec q m opts w = (Return (s, placeholders), w') ->
        Exists (fun a => placeholderName a = None) placeholders ->
        exists a,
          a ∈ placeholders /\ placeholderName a = None
          /\ PrepareBoundQuery fieldPositions exec q m opts w
             = (Fail (NamedArgRequiredError a), w'))
  /\ (forall s placeholders names w',
        prepareQuery exec q m opts w = (Return (s, placeholders), w') ->
        Forall2 isNamed placeholders names ->
        Exists (fun n => n ∉ fieldPositions) names ->
        exists n,
          n ∈ names /\ (n ∉ fieldPositions)
          /\ PrepareBoundQuery fieldPositions exec q m opts w
             = (Fail (MissingArgError n), w'))
  /\ (forall s placeholders names w',
        prepareQuery exec q m opts w = (Return (s, placeholders), w') ->
        Forall2 isNamed placeholders names ->
        Forall (fun n => n ∈ fieldPositions) names ->
        PrepareBoundQuery fieldPositions exec q m opts w
        = (Return {| BoundQueryStmt_QueryStmt := s;
                     BoundQueryStmt_binder :=
                       {| args := names; fields := fieldPositions |} |}, w')).
Proof.
  unfold PrepareBoundQuery, PrepareBoundQueryx, bind, withBinder. repeat split.
  - intros err w' Hprep. rewrite Hprep. reflexivity.
  - intros s placeholders w' Hprep Hanon. rewrite Hprep.
    apply (Exists_first _ _) in Hanon as (pre & a & post & -> & Hpre & Ha).
    exists a. rewrite (makeStructBinder_first_anonymous _ pre a post Hpre Ha).
    repeat split; [|exact Ha]. apply elem_of_app. right. left.
  - intros s placeholders names w' Hprep Hnames Hmiss. rewrite Hprep.
    apply Exists_first_not_elem_of in Hmiss as (pre & n & post & -> & Hpre & Hn).
    exists n. rewrite (makeStructBinder_first_missing _ _ pre n post Hnames Hpre Hn).
    repeat split; [|exact Hn]. apply elem_of_app. right. left.
  - intros s placeholders names w' Hprep Hnames Hin. rewrite Hprep.
    rewrite (makeStructBinder_all_found _ _ _ Hnames Hin). reflexivity.
Qed.

Lemma PrepareBoundQuery_outcomes_example :
  (@prepareQuery _ logPreparation tt (Some [namedArg "id"; namedArg "ID"]) tt [] []
   = (Return (@Build_QueryStmt logHandles logStmt tt, [namedArg "id"; namedArg "ID"]),
      [[Str "PREPARE"]])
   /\ Forall2 isNamed [namedArg "id"; namedArg "ID"] ["id"; "ID"]
   /\ Exists (fun n => n ∉ userFields) ["id"; "ID"])
  /\ exists n,
       n ∈ ["id"; "ID"] /\ (n ∉ userFields)
       /\ @PrepareBoundQuery _ logPreparation userFields tt
            (Some [namedArg "id"; namedArg "ID"]) tt [] []
          = (Fail (MissingArgError n), [[Str "PREPARE"]]).
Proof.
  assert (@prepareQuery _ logPreparation tt (Some [namedArg "id"; namedArg "ID"]) tt [] []
          = (Return (@Build_QueryStmt logHandles logStmt tt,
                     [namedArg "id"; namedArg "ID"]), [[Str "PREPARE"]]))
    as Hprep by reflexivity.
  assert (Forall2 isNamed [namedArg "id"; namedArg "ID"] ["id"; "ID"]) as Hnames
    by (repeat constructor).
  assert (Exists (fun n => n ∉ userFields) ["id"; "ID"]) as Hmiss
    by (right; left; apply hasField_false; reflexivity).
  split; [repeat split; assumption|].
  exact (proj1 (proj2 (proj2 (@PrepareBoundQuery_outcomes _ logPreparation userFields tt
                                (Some [namedArg "id"; namedArg "ID"]) tt [] [])))
           _ _ _ _ Hprep Hnames Hmiss).
Defined.

(** X11: whatever the handle of the statement, a statement that [InTx]
    returns has the binder and the remaining configuration of the original,
    the transaction as its executor, and as handle either the error handle
    or a [stdStmt]; never a handle of another kind, and never the error
    handle of the original. *)
Theorem InTx_result_shape `{Collaborator}
    (s : BoundStmt) (q : BoundQueryStmt) (tx : Tx) (w : World) :
  (forall s' w',
     BoundStmt_InTx s tx w = (Return s', w') ->
     BoundStmt_binder s' = BoundStmt_binder s
     /\ Stmt_config (BoundStmt_stmt s') = Stmt_config (BoundStmt_stmt s)
     /\ Stmt_exec (BoundStmt_stmt s') = TxExecutor tx
     /\ (Stmt_stmt (BoundStmt_stmt s') = errStmt (errors_New "stmt is not an stdStmt")
         \/ exists p, Stmt_stmt (BoundStmt_stmt s') = stdStmt p))
  /\ (forall q' w',
        BoundQueryStmt_InTx q tx w = (Return q', w') ->
        BoundQueryStmt_binder q' = BoundQueryStmt_binder q
        /\ QueryStmt_config (BoundQueryStmt_QueryStmt q')
           = QueryStmt_config (BoundQueryStmt_QueryStmt q)
        /\ Stmt_config (QueryStmt_Stmt (BoundQueryStmt_QueryStmt q'))
           = Stmt_config (QueryStmt_Stmt (BoundQueryStmt_QueryStmt q))
        /\ Stmt_exec (QueryStmt_Stmt (BoundQueryStmt_QueryStmt q')) = TxExecutor tx
        /\ (Stmt_stmt (QueryStmt_Stmt (BoundQueryStmt_QueryStmt q'))
            = errStmt (errors_New "stmt is not an stdStmt")
            \/ exists p, Stmt_stmt (QueryStmt_Stmt (BoundQueryStmt_QueryStmt q')) = stdStmt p)).
Proof.
  assert (forall old h w',
            rebind old tx w = (Return h, w') ->
            h = errStmt (errors_New "stmt is not an stdStmt") \/ exists p, h = stdStmt p)
    as Hhandle.
  { intros old h w' Hrun. unfold rebind, bind, ret in Hrun.
    destruct old as [p|e|o]; simpl in Hrun.
    - injection Hrun as <- _. by left.
    - destruct (StmtContext (wrapped tx) None w) as [[p|e'|p'] w1]; try discriminate.
      injection Hrun as <- _. right. by exists p.
    - destruct (StmtContext (wrapped tx) None w) as [[p|e'|p'] w1]; try discriminate.
      injection Hrun as <- _. right. by exists p. }
  split.
  - intros s' w' Hrun. unfold BoundStmt_InTx, bind in Hrun.
    destruct (rebind (Stmt_stmt (BoundStmt_stmt s)) tx w) as [[h|e|p] w1] eqn:Hre;
      try discriminate.
    unfold ret in Hrun. injection Hrun as <- _. simpl.
    repeat split. exact (Hhandle _ _ _ Hre).
  - intros q' w' Hrun. unfold BoundQueryStmt_InTx, bind in Hrun.
    destruct (rebind (Stmt_stmt (QueryStmt_Stmt (BoundQueryStmt_QueryStmt q))) tx w)
      as [[h|e|p] w1] eqn:Hre; try discriminate.
    unfold ret in Hrun. injection Hrun as <- _. simpl.
    repeat split. exact (Hhandle _ _ _ Hre).
Qed.

Lemma InTx_result_shape_example :
  @BoundStmt_InTx _ logCollaborator logBound logTx []
  = (Return {| BoundStmt_stmt :=
                 @Build_Stmt logHandles (errStmt (errors_New "stmt is not an stdStmt"))
                   (TxExecutor logTx) tt;
               BoundStmt_binder := userBinder |}, [])
  /\ BoundStmt_binder
       {| BoundStmt_stmt :=
            @Build_Stmt logHandles (errStmt (errors_New "stmt is not an stdStmt"))
              (TxExecutor logTx) tt;
          BoundStmt_binder := userBinder |}
     = BoundStmt_binder logBound.
Proof.
  assert (@BoundStmt_InTx _ logCollaborator logBound logTx []
          = (Return {| BoundStmt_stmt :=
                         @Build_Stmt logHandles
                           (errStmt (errors_New "stmt is not an stdStmt"))
                           (TxExecutor logTx) tt;
                       BoundStmt_binder := userBinder |}, [])) as Hrun by reflexivity.
  split; [exact Hrun|].
  exact (proj1 (proj1 (@InTx_result_shape _ logCollaborator logBound logBoundQuery logTx [])
                  _ _ Hrun)).
Defined.

(** * Further properties of the sqlite SELECT query *)

Section SelectQueryOutcomes.
Import sqlite.
Context `{Renderer}.

Ltac clause_outcome :=
  match goal with
  | |- context [ExpressIf ?d ?o ?e ?c ?p ?x ?w] =>
      destruct (ExpressIf d o e c p x w) as [[?|?|?] ?]; try reflexivity
  end.

Lemma WriteSQL_renderClauses (s : SelectQuery) (d : Dialect) (start : Z) (w : Writer) :
  WriteSQL s d start w
  = (args <- renderClauses d start (renderingOrder s) [] ;; _ <- w_Write nl ;; ret args) w.
Proof.
  cbv [WriteSQL renderClauses renderingOrder bind ret w_Write]. repeat clause_outcome.
Qed.

(** Rendering after a successful run of the leading clauses goes on from
    the sink and the placeholders that the run produced. *)
Lemma renderClauses_app d start pre cs collected w pieces w1 :
  rendered d start pre collected w pieces w1 ->
  renderClauses d start (pre ++ cs) collected w
  = renderClauses d start cs (collected ++ concat pieces) w1.
Proof.
  induction 1 as [collected w|e cond prefix pre collected w piece w1 pieces w2 Hstep _ IH];
    simpl.
  - by rewrite app_nil_r.
  - unfold bind. rewrite Hstep, IH. by rewrite app_assoc.
Qed.

Lemma concat_take_length {A} (pieces : list (list A)) (k : nat) :
  length (concat (take k pieces)) <= length (concat pieces).
Proof.
  rewrite <- (take_drop k pieces) at 2. rewrite concat_app, length_app. lia.
Qed.

(** X12: when each of the eleven clauses renders without error from the
    offset it is given, [WriteSQL] returns the concatenation of their
    placeholder lists, and the sink is the one the last clause left with a
    newline written to it. *)
Theorem WriteSQL_returns_concatenation
    (s : SelectQuery) (d : Dialect) (start : Z) (w : Writer) pieces (w1 : Writer) :
  rendered d start (renderingOrder s) [] w pieces w1 ->
  WriteSQL s d start w = (Return (concat pieces), Write nl w1).
Proof.
  intros Hrun. rewrite WriteSQL_renderClauses. unfold bind at 1.
  rewrite (rendered_renderClauses _ _ _ _ _ _ _ Hrun). reflexivity.
Qed.

(** X13: when a clause fails after the clauses before it rendered,
    [WriteSQL] returns that error; the clauses after it are not rendered
    and no newline is written: the sink is the one the failing clause
    left. *)
Theorem WriteSQL_first_error
    (s : SelectQuery) (d : Dialect) (start : Z) (w : Writer)
    pre e cond prefix post pieces (w1 w2 : Writer) err :
  renderingOrder s = pre ++ (e, cond, prefix) :: post ->
  rendered d start pre [] w pieces w1 ->
  ExpressIf d (int_add start (len (concat pieces))) e cond prefix "" w1 = (Fail err, w2) ->
  WriteSQL s d start w = (Fail err, w2).
Proof.
  intros Horder Hpre Hfail. rewrite WriteSQL_renderClauses, Horder. unfold bind at 1.
  rewrite (renderClauses_app _ _ _ _ _ _ _ _ Hpre). simpl. unfold bind at 1.
  rewrite Hfail. reflexivity.
Qed.

(** X14: when [WriteSQL] returns and the initial offset plus the number of
    returned placeholders fits Go's [int], no offset wrapped around: the
    clause at position [k] was rendered from exactly [start] plus the number
    of placeholders of the clauses before it. *)
Theorem WriteSQL_offsets_exact
    (s : SelectQuery) (d : Dialect) (start : Z) (w : Writer) args (w' : Writer) :
  WriteSQL s d start w = (Return args, w') ->
  (- 2 ^ 63 <= start)%Z ->
  (start + len args < 2 ^ 63)%Z ->
  exists pieces,
    args = concat pieces
    /\ length pieces = 11
    /\ forall k e cond prefix piece,
         renderingOrder s !! k = Some (e, cond, prefix) ->
         pieces !! k = Some piece ->
         exists wk wk',
           ExpressIf d (start + len (concat (take k pieces)))%Z e cond prefix "" wk
           = (Return piece, wk').
Proof.
  intros Hrun Hlow Hhigh. rewrite WriteSQL_renderClauses in Hrun. unfold bind at 1 in Hrun.
  destruct (renderClauses d start (renderingOrder s) [] w) as [[all|err|p] w1] eqn:Hall;
    try discriminate.
  unfold bind, w_Write, ret in Hrun. injection Hrun as <- _.
  apply renderClauses_Return in Hall as (pieces & Hrendered & ->). simpl in *.
  exists pieces. repeat split.
  - exact (rendered_length _ _ _ _ _ _ _ Hrendered).
  - intros k e cond prefix piece Hk Hpiece.
    destruct (rendered_offsets _ _ _ _ _ _ _ Hrendered k e cond prefix piece Hk Hpiece)
      as (wk & wk' & Hstep).
    exists wk, wk'. simpl in Hstep. rewrite int_add_exact in Hstep; [exact Hstep|].
    pose proof (concat_take_length pieces k) as Hle. unfold len in *. lia.
Qed.

End SelectQueryOutcomes.

Lemma WriteSQL_returns_concatenation_example :
  @sqlite.rendered _ textRenderer tt 1 (sqlite.renderingOrder textQuery) [] ""
    [[]; [Int 1]; [Int 2]; [Int 3]; []; []; []; []; []; [Int 4]; []]
    (nl +:+ "?" +:+ nl +:+ "FROM ?" +:+ nl +:+ "?" +:+ nl +:+ "?")
  /\ @sqlite.WriteSQL _ textRenderer textQuery tt 1 ""
     = (Return (concat [[]; [Int 1]; [Int 2]; [Int 3]; []; []; []; []; []; [Int 4]; []]),
        @sqlite.Write _ textRenderer nl
          (nl +:+ "?" +:+ nl +:+ "FROM ?" +:+ nl +:+ "?" +:+ nl +:+ "?")).
Proof.
  assert (@sqlite.rendered _ textRenderer tt 1 (sqlite.renderingOrder textQuery) [] ""
            [[]; [Int 1]; [Int 2]; [Int 3]; []; []; []; []; []; [Int 4]; []]
            (nl +:+ "?" +:+ nl +:+ "FROM ?" +:+ nl +:+ "?" +:+ nl +:+ "?")) as Hrun.
  { unfold sqlite.renderingOrder.
    repeat (eapply sqlite.rendered_cons; [reflexivity|]). apply sqlite.rendered_nil. }
  split; [exact Hrun|].
  exact (@WriteSQL_returns_concatenation _ textRenderer textQuery tt 1 "" _ _ Hrun).
Defined.

Lemma WriteSQL_first_error_example :
  (sqlite.renderingOrder textQuery
   = take 3 (sqlite.renderingOrder textQuery)
     ++ (sqlite.clauseWhere (sqlite.SelectQuery_Where textQuery), true, nl)
     :: drop 4 (sqlite.renderingOrder textQuery)
   /\ @sqlite.rendered _ failingRenderer tt 1 (take 3 (sqlite.renderingOrder textQuery))
        [] "" [[]; [Int 1]; [Int 2]] (nl +:+ "?" +:+ nl +:+ "FROM ?")
   /\ @sqlite.ExpressIf _ failingRenderer tt
        (int_add 1 (len (concat [[]; [Int 1]; [Int 2]])))
        (sqlite.clauseWhere (sqlite.SelectQuery_Where textQuery)) true nl ""
        (nl +:+ "?" +:+ nl +:+ "FROM ?")
      = (Fail (errors_New "bad condition"), nl +:+ "?" +:+ nl +:+ "FROM ?" +:+ nl))
  /\ @sqlite.WriteSQL _ failingRenderer textQuery tt 1 ""
     = (Fail (errors_New "bad condition"), nl +:+ "?" +:+ nl +:+ "FROM ?" +:+ nl).
Proof.
  assert (sqlite.renderingOrder textQuery
          = take 3 (sqlite.renderingOrder textQuery)
            ++ (sqlite.clauseWhere (sqlite.SelectQuery_Where textQuery), true, nl)
            :: drop 4 (sqlite.renderingOrder textQuery)) as Horder by reflexivity.
  assert (@sqlite.rendered _ failingRenderer tt 1
            (take 3 (sqlite.renderingOrder textQuery))
            [] "" [[]; [Int 1]; [Int 2]] (nl +:+ "?" +:+ nl +:+ "FROM ?")) as Hpre.
  { unfold sqlite.renderingOrder. simpl take.
    repeat (eapply sqlite.rendered_cons; [reflexivity|]). apply sqlite.rendered_nil. }
  assert (@sqlite.ExpressIf _ failingRenderer tt
            (int_add 1 (len (concat [[]; [Int 1]; [Int 2]])))
            (sqlite.clauseWhere (sqlite.SelectQuery_Where textQuery)) true nl ""
            (nl +:+ "?" +:+ nl +:+ "FROM ?")
          = (Fail (errors_New "bad condition"), nl +:+ "?" +:+ nl +:+ "FROM ?" +:+ nl))
    as Hfail by reflexivity.
  split; [repeat split; assumption|].
  exact (@WriteSQL_first_error _ failingRenderer textQuery tt 1 ""
           (take 3 (sqlite.renderingOrder textQuery))
           (sqlite.clauseWhere (sqlite.SelectQuery_Where textQuery)) true nl
           (drop 4 (sqlite.renderingOrder textQuery))
           _ _ _ _ Horder Hpre Hfail).
Defined.

Lemma WriteSQL_offsets_exact_example :
  (@sqlite.WriteSQL _ textRenderer textQuery tt 1 ""
   = (Return [Int 1; Int 2; Int 3; Int 4],
      nl +:+ "?" +:+ nl +:+ "FROM ?" +:+ nl +:+ "?" +:+ nl +:+ "?" +:+ nl)
   /\ (- 2 ^ 63 <= 1)%Z
   /\ (1 + len [Int 1; Int 2; Int 3; Int 4] < 2 ^ 63)%Z)
  /\ exists pieces,
       [Int 1; Int 2; Int 3; Int 4] = concat pieces
       /\ length pieces = 11
       /\ forall k e cond prefix piece,
            sqlite.renderingOrder textQuery !! k = Some (e, cond, prefix) ->
            pieces !! k = Some piece ->
            exists wk wk',
              @sqlite.ExpressIf _ textRenderer tt (1 + len (concat (take k pieces)))%Z
                e cond prefix "" wk = (Return piece, wk').
Proof.
  assert (@sqlite.WriteSQL _ textRenderer textQuery tt 1 ""
          = (Return [Int 1; Int 2; Int 3; Int 4],
             nl +:+ "?" +:+ nl +:+ "FROM ?" +:+ nl +:+ "?" +:+ nl +:+ "?" +:+ nl))
    as Hrun by reflexivity.
  assert (- 2 ^ 63 <= 1)%Z as Hlow by (vm_compute; discriminate).
  assert (1 + len [Int 1; Int 2; Int 3; Int 4] < 2 ^ 63)%Z as Hhigh by reflexivity.
  split; [repeat split; assumption|].
  exact (@WriteSQL_offsets_exact _ textRenderer textQuery tt 1 "" _ _ Hrun Hlow Hhigh).
Defined.
